(** * Effect Schema class generation (src/lib/effect-schema-class.ts)

    A shallow embedding of [formatClassName] and [generateEffectSchemas],
    followed by the properties of the generated text.

    Strings.  A JavaScript string is modelled as a Rocq [string]: the
    sequence of bytes of its UTF-8 encoding.  [toLowerCase] and
    [toUpperCase] are modelled on the ASCII letters and leave every other
    byte unchanged.  The generator only compares lower-cased type tags
    with ASCII words made of letters that no non-ASCII character
    lower-cases to, so the dispatch is the same as in JavaScript; for
    [formatClassName] the model covers table names whose first character
    is ASCII or has no upper-case form. *)

From Stdlib Require Import String Ascii List Bool Arith Lia.
Import ListNotations.

Local Open Scope string_scope.

(** ** JavaScript string primitives used by the generator *)

Module Js.

(** Characters that cannot be written inside a literal here. *)
Definition dq : string := String (ascii_of_nat 34) EmptyString.
Definition nl : string := String (ascii_of_nat 10) EmptyString.
Definition bslash : ascii := ascii_of_nat 92.
Definition quote : ascii := ascii_of_nat 39.
Definition backtick : string := String (ascii_of_nat 96) EmptyString.

Definition isUpper (c : ascii) : bool :=
  ((65 <=? nat_of_ascii c) && (nat_of_ascii c <=? 90))%nat.

Definition isLower (c : ascii) : bool :=
  ((97 <=? nat_of_ascii c) && (nat_of_ascii c <=? 122))%nat.

Definition isDigit (c : ascii) : bool :=
  ((48 <=? nat_of_ascii c) && (nat_of_ascii c <=? 57))%nat.

Definition lowerChar (c : ascii) : ascii :=
  if isUpper c then ascii_of_nat (nat_of_ascii c + 32) else c.

Definition upperChar (c : ascii) : ascii :=
  if isLower c then ascii_of_nat (nat_of_ascii c - 32) else c.

(** [s.toLowerCase()] *)
Fixpoint toLowerCase (s : string) : string :=
  match s with
  | EmptyString => EmptyString
  | String c r => String (lowerChar c) (toLowerCase r)
  end.

(** [s.toUpperCase()] *)
Fixpoint toUpperCase (s : string) : string :=
  match s with
  | EmptyString => EmptyString
  | String c r => String (upperChar c) (toUpperCase r)
  end.

(** [s.charAt(n)]: the one-character string at index [n], or the empty
    string when [n] is out of range. *)
Fixpoint charAt (n : nat) (s : string) : string :=
  match s with
  | EmptyString => EmptyString
  | String c r =>
      match n with
      | O => String c EmptyString
      | S k => charAt k r
      end
  end.

(** [s.slice(n)] for a non-negative [n]. *)
Fixpoint slice (n : nat) (s : string) : string :=
  match n with
  | O => s
  | S k =>
      match s with
      | EmptyString => EmptyString
      | String _ r => slice k r
      end
  end.

(** [s.startsWith(p)] *)
Definition startsWith (p s : string) : bool := prefix p s.

(** [s.includes(p)] *)
Fixpoint includes (p s : string) : bool :=
  prefix p s ||
  match s with
  | EmptyString => false
  | String _ r => includes p r
  end.

(** [l.join(sep)] *)
Definition join (sep : string) (l : list string) : string := String.concat sep l.

(** Truthiness of an optional string property: [undefined] and the
    empty string are falsy. *)
Definition truthy (o : option string) : bool :=
  match o with
  | Some (String _ _) => true
  | _ => false
  end.

(** [s.replace(/\\'/g, "'")]: every backslash-quote pair, found from
    left to right without overlap, becomes a quote. *)
Fixpoint unescapeQuotes (s : string) : string :=
  match s with
  | EmptyString => EmptyString
  | String c r =>
      match r with
      | String c' r' =>
          if (Ascii.eqb c bslash && Ascii.eqb c' quote)%bool
          then String quote (unescapeQuotes r')
          else String c (unescapeQuotes r)
      | EmptyString => String c EmptyString
      end
  end.

(** [s.replace(/'/g, "\\'")]: every quote gets a backslash before it. *)
Fixpoint escapeQuotes (s : string) : string :=
  match s with
  | EmptyString => EmptyString
  | String c r =>
      if Ascii.eqb c quote
      then String bslash (String quote (escapeQuotes r))
      else String c (escapeQuotes r)
  end.

(** The remainder of [s] after its leading decimal digits. *)
Fixpoint skipDigits (s : string) : string :=
  match s with
  | EmptyString => EmptyString
  | String c r => if isDigit c then skipDigits r else s
  end.

(** [\d+] at the head of [s]: the remainder after the digits, when
    there is at least one. *)
Definition digits1 (s : string) : option string :=
  match s with
  | EmptyString => None
  | String c r => if isDigit c then Some (skipDigits r) else None
  end.

(** [-?] at the head of [s]: the remainder after the minus sign, when
    there is one. *)
Definition optMinus (s : string) : string :=
  match s with
  | String c r => if Ascii.eqb c "-"%char then r else s
  | EmptyString => s
  end.

(** [/^-?\d+(\.\d+)?$/.test(s)] *)
Definition numericTest (s : string) : bool :=
  match digits1 (optMinus s) with
  | None => false
  | Some EmptyString => true
  | Some (String c r) =>
      if Ascii.eqb c "."%char
      then match digits1 r with
           | Some EmptyString => true
           | _ => false
           end
      else false
  end.

End Js.

Import Js.

(** ** Data model (the input types of src/lib/schema.ts, as the
    generator reads them) *)

Record Reference := { table : string }.

Record FieldDefinition := {
  field_name : string;
  field_type : string;
  field_optional : bool;
  field_description : option string;
  field_defaultValue : option string;
  field_reference : option Reference
}.

Record TableDefinition := {
  table_name : string;
  table_description : option string;
  table_fields : list FieldDefinition
}.

(** ** The generator *)

(** [formatClassName], lines 24-26.  The [toUpperCase] of the model is
    the one of JavaScript on the empty string and on an ASCII first
    character; what is stated of the value of a class name is stated for
    such names. *)
Definition formatClassName (tableName : string) : string :=
  toUpperCase (charAt 0 tableName) ++ slice 1 tableName.

(** The preamble, lines 33-50. *)
Definition imports : string :=
  join nl
    [ "import { Schema } from " ++ dq ++ "effect" ++ dq ++ ";";
      EmptyString;
      "// Type for representing a RecordId in Effect Schema";
      "type RecordId<T extends string = string> = string & {";
      "  readonly RecordId: unique symbol;";
      "  readonly Table: T;";
      "};";
      EmptyString;
      "/**";
      " * Create a RecordId schema for a specific table";
      " */";
      "function recordId<T extends string>(tableName: T): Schema.Schema<RecordId<T>> {";
      "  return Schema.String.pipe(";
      "    Schema.pattern(/^[a-zA-Z0-9_-]+:[a-zA-Z0-9_-]+$/),";
      "    Schema.brand(" ++ backtick ++ "RecordId<${tableName}>" ++ backtick ++ "),";
      "  ) as unknown as Schema.Schema<RecordId<T>>;";
      "}";
      EmptyString ].

(** The synthesized identifier field, lines 66-68. *)
Definition idFieldDefinition (name : string) : string :=
  "  id: recordId(" ++ dq ++ name ++ dq ++ ").annotations({" ++ nl ++
  "    description: " ++ dq ++ "Unique identifier" ++ dq ++ nl ++
  "  })".

(** Lines 77-82: the description entry pushed on [annotations]. *)
Definition escapedDescription (d : string) : string :=
  escapeQuotes (unescapeQuotes d).

Definition descriptionAnnotations (f : FieldDefinition) : list string :=
  if truthy (field_description f)
  then match field_description f with
       | Some d => [ "description: '" ++ escapedDescription d ++ "'" ]
       | None => []
       end
  else [].

(** Lines 101-109: the value of a default without a function call. *)
Definition formatPlainDefault (v : string) : string :=
  if negb (startsWith "'" v) &&
     negb (startsWith dq v) &&
     negb (v =? "true") &&
     negb (v =? "false") &&
     negb (numericTest v) &&
     negb (startsWith "[" v) &&
     negb (startsWith "{" v)
  then "'" ++ v ++ "'"
  else v.

(** Lines 85-113: the default entry pushed on [annotations]. *)
Definition defaultAnnotations (f : FieldDefinition) : list string :=
  if truthy (field_defaultValue f)
  then match field_defaultValue f with
       | Some v =>
           if includes "::" v
           then if toLowerCase (field_type f) =? "datetime"
                then [ "surrealDefault: '" ++ v ++ "'" ]
                else [ "default: " ++ ("'" ++ v ++ "'") ]
           else [ "default: " ++ formatPlainDefault v ]
       | None => []
       end
  else [].

(** The array [annotations] once both pushes are done. *)
Definition annotations (f : FieldDefinition) : list string :=
  (descriptionAnnotations f ++ defaultAnnotations f)%list.

(** Line 116. *)
Definition annotationsStr (f : FieldDefinition) : string :=
  if (0 <? List.length (annotations f))%nat
  then ".annotations({ " ++ join ", " (annotations f) ++ " })"
  else EmptyString.

(** The two angle brackets of line 157, U+27E8 and U+27E9, in UTF-8. *)
Definition langle : string :=
  String (ascii_of_nat 226) (String (ascii_of_nat 159) (String (ascii_of_nat 168) EmptyString)).
Definition rangle : string :=
  String (ascii_of_nat 226) (String (ascii_of_nat 159) (String (ascii_of_nat 169) EmptyString)).

Definition colonPattern : string := "/^[a-zA-Z0-9_-]+:[a-zA-Z0-9_-]+$/".
Definition bracketPattern : string :=
  "/^[a-zA-Z0-9_-]+:" ++ langle ++ String bslash "d+" ++ rangle ++ "$/".

(** The [switch] of lines 118-170: [effectType] before the optional
    wrapping. *)
Definition dispatchType (f : FieldDefinition) : string :=
  let ty := toLowerCase (field_type f) in
  if (ty =? "int") || (ty =? "number") then
    "Schema.Number.pipe(Schema.int())" ++ annotationsStr f
  else if ty =? "float" then
    "Schema.Number" ++ annotationsStr f
  else if ty =? "bool" then
    "Schema.Boolean" ++ annotationsStr f
  else if ty =? "datetime" then
    "Schema.Date" ++ annotationsStr f
  else if ty =? "array" then
    "Schema.Array(Schema.String)" ++ annotationsStr f
  else if ty =? "array_float" then
    "Schema.Array(Schema.Number)" ++ annotationsStr f
  else if ty =? "array_record" then
    match field_reference f with
    | Some r =>
        "Schema.Array(recordId(" ++ dq ++ table r ++ dq ++ "))" ++ annotationsStr f
    | None =>
        "Schema.Array(Schema.String.pipe(Schema.pattern(" ++ colonPattern ++ ")))"
          ++ annotationsStr f
    end
  else if ty =? "object" then
    "Schema.Record(Schema.String, Schema.Unknown)" ++ annotationsStr f
  else if ty =? "record" then
    match field_reference f with
    | Some r =>
        if (field_name f =? "reply_to_message_id") && (table r =? "telegram_message")
        then "recordId(" ++ dq ++ "telegram_message" ++ dq ++ ")" ++ annotationsStr f
        else "recordId(" ++ dq ++ table r ++ dq ++ ")" ++ annotationsStr f
    | None =>
        "Schema.String.pipe(Schema.pattern(" ++ bracketPattern ++ "))" ++ annotationsStr f
    end
  else if ty =? "references" then
    match field_reference f with
    | Some r =>
        "Schema.Array(recordId(" ++ dq ++ table r ++ dq ++ "))" ++ annotationsStr f
    | None =>
        "Schema.Array(Schema.String)" ++ annotationsStr f
    end
  else
    "Schema.String" ++ annotationsStr f.

(** Lines 172-175: [effectType] as it is returned. *)
Definition effectType (f : FieldDefinition) : string :=
  if negb (toLowerCase (field_type f) =? "datetime") && field_optional f
  then "Schema.optional(" ++ dispatchType f ++ ")"
  else dispatchType f.

(** Line 177: the text of one declared field. *)
Definition fieldDefinition (f : FieldDefinition) : string :=
  "  " ++ field_name f ++ ": " ++ effectType f.

(** Line 59. *)
Definition hasIdField (fields : list FieldDefinition) : bool :=
  existsb (fun field => field_name field =? "id") fields.

(** Lines 62-178: the array [fieldDefinitions]. *)
Definition fieldDefinitions (t : TableDefinition) : list string :=
  ((if negb (hasIdField (table_fields t))
    then [ idFieldDefinition (table_name t) ]
    else [])
   ++ map fieldDefinition (table_fields t))%list.

(** Lines 180-182. *)
Definition tableDescription (t : TableDefinition) : string :=
  if truthy (table_description t)
  then match table_description t with
       | Some d => nl ++ "/**" ++ nl ++ " * " ++ escapeQuotes d ++ nl ++ " */"
       | None => EmptyString
       end
  else EmptyString.

(** Lines 184-188: the text of one table's class.  The constant
    [needsRecursive] of line 56 is never read and has no counterpart
    here. *)
Definition tableClass (t : TableDefinition) : string :=
  let className := formatClassName (table_name t) in
  tableDescription t ++ nl ++
  "export class " ++ className ++ " extends Schema.Class<" ++ className ++ ">("
    ++ dq ++ className ++ dq ++ ")({" ++ nl ++
  join ("," ++ nl) (fieldDefinitions t) ++ nl ++
  "}) {}" ++ nl.

(** Lines 53-189. *)
Definition tableClasses (tables : list TableDefinition) : string :=
  join nl (map tableClass tables).

(** [generateEffectSchemas], lines 31-192, on a table list. *)
Definition generateEffectSchemas (tables : list TableDefinition) : string :=
  imports ++ nl ++ tableClasses tables.

(** A call of [generateEffectSchemas] on a JavaScript value: [None] is
    [null] or [undefined], on which [tables.map] (line 53) throws a
    TypeError.  No other statement of the function throws. *)
Inductive JsError := TypeError.

Inductive Completion :=
| Return (text : string)
| Throw (e : JsError).

Definition callGenerateEffectSchemas (tables : option (list TableDefinition)) : Completion :=
  match tables with
  | None => Throw TypeError
  | Some ts => Return (generateEffectSchemas ts)
  end.

(** ** Basic facts on strings *)

Section StringFacts.

Lemma append_nil_r (s : string) : s ++ EmptyString = s.
Proof. induction s as [|c s IH]; simpl; [reflexivity | now rewrite IH]. Qed.

Lemma append_assoc (a b c : string) : (a ++ b) ++ c = a ++ (b ++ c).
Proof. induction a as [|x a IH]; simpl; [reflexivity | now rewrite IH]. Qed.

Lemma prefix_append (p s : string) : prefix p (p ++ s) = true.
Proof.
  induction p as [|c p IH]; simpl.
  - now destruct s.
  - destruct (ascii_dec c c) as [_|n]; [exact IH | now elim n].
Qed.

Lemma prefix_split (p s : string) :
  prefix p s = true <-> exists r, s = p ++ r.
Proof.
  split.
  - revert s; induction p as [|c p IH]; intros s H.
    + now exists s.
    + destruct s as [|d s]; simpl in H; [discriminate|].
      destruct (ascii_dec c d) as [->|]; [|discriminate].
      destruct (IH _ H) as [r ->]. now exists r.
  - intros [r ->]. apply prefix_append.
Qed.

Lemma includes_unfold (p s : string) :
  includes p s =
  prefix p s || match s with
                | EmptyString => false
                | String _ r => includes p r
                end.
Proof. destruct s; reflexivity. Qed.

Lemma includes_split (p s : string) :
  includes p s = true <-> exists a b, s = a ++ p ++ b.
Proof.
  split.
  - induction s as [|c s IH]; rewrite includes_unfold; intros H;
      apply orb_true_iff in H as [H|H]; try discriminate.
    + apply prefix_split in H as [r Hr]. now exists EmptyString, r.
    + apply prefix_split in H as [r Hr]. now exists EmptyString, r.
    + destruct (IH H) as (a & b & ->). now exists (String c a), b.
  - intros (a & b & ->). induction a as [|c a IH].
    + rewrite includes_unfold. change (EmptyString ++ p ++ b) with (p ++ b).
      now rewrite prefix_append.
    + change (String c a ++ p ++ b) with (String c (a ++ p ++ b)).
      rewrite includes_unfold, IH. apply orb_true_r.
Qed.

End StringFacts.

(** ** The identifier field and the declared fields *)

Section ClassFields.

Lemma hasIdField_spec (fields : list FieldDefinition) :
  hasIdField fields = true <->
  exists f, In f fields /\ field_name f = "id".
Proof.
  unfold hasIdField. rewrite existsb_exists.
  split; intros (f & Hin & H); exists f; split; trivial;
    now apply String.eqb_eq.
Qed.

Lemma hasIdField_none (fields : list FieldDefinition) :
  hasIdField fields = false <->
  forall f, In f fields -> field_name f <> "id".
Proof.
  rewrite <- not_true_iff_false, hasIdField_spec. split.
  - intros H f Hin Hn. apply H. now exists f.
  - intros H (f & Hin & Hn). exact (H f Hin Hn).
Qed.

Lemma fieldDefinitions_declared (t : TableDefinition) :
  exists synthesized,
    fieldDefinitions t = (synthesized ++ map fieldDefinition (table_fields t))%list
    /\ (synthesized = [] \/ synthesized = [ idFieldDefinition (table_name t) ]).
Proof.
  unfold fieldDefinitions.
  destruct (negb (hasIdField (table_fields t))); eexists; split;
    try reflexivity; auto.
Qed.

End ClassFields.

(** C1.  A table without a field named [id] gets a synthesized first
    field [id: recordId("<table name>")] annotated with the description
    "Unique identifier"; a table that declares a field named [id] gets
    none; in both cases the declared fields follow in declaration order,
    and the class text is built from exactly these field texts. *)
Theorem implicit_id_synthesis (t : TableDefinition) :
  ((forall f, In f (table_fields t) -> field_name f <> "id") ->
     fieldDefinitions t =
       idFieldDefinition (table_name t) :: map fieldDefinition (table_fields t))
  /\ ((exists f, In f (table_fields t) /\ field_name f = "id") ->
     fieldDefinitions t = map fieldDefinition (table_fields t))
  /\ idFieldDefinition (table_name t) =
       "  id: recordId(" ++ dq ++ table_name t ++ dq ++ ").annotations({" ++ nl ++
       "    description: " ++ dq ++ "Unique identifier" ++ dq ++ nl ++ "  })"
  /\ (forall i f, nth_error (table_fields t) i = Some f ->
        nth_error (fieldDefinitions t)
          (i + (List.length (fieldDefinitions t) - List.length (table_fields t)))
        = Some (fieldDefinition f))
  /\ exists header,
       tableClass t =
         header ++ join ("," ++ nl) (fieldDefinitions t) ++ nl ++ "}) {}" ++ nl.
Proof.
  split; [|split; [|split; [|split]]].
  - intros H. apply hasIdField_none in H.
    unfold fieldDefinitions. now rewrite H.
  - intros H. apply hasIdField_spec in H.
    unfold fieldDefinitions. now rewrite H.
  - reflexivity.
  - intros i f Hi.
    destruct (fieldDefinitions_declared t) as (syn & -> & Hsyn).
    rewrite length_app, length_map.
    replace (i + (List.length syn + List.length (table_fields t)
                  - List.length (table_fields t)))
      with (List.length syn + i) by lia.
    rewrite nth_error_app2 by lia.
    replace (List.length syn + i - List.length syn) with i by lia.
    rewrite nth_error_map, Hi. reflexivity.
  - unfold tableClass.
    set (cn := formatClassName (table_name t)).
    exists (tableDescription t ++ nl ++ "export class " ++ cn ++
            " extends Schema.Class<" ++ cn ++ ">(" ++ dq ++ cn ++ dq ++ ")({" ++ nl).
    repeat rewrite append_assoc. reflexivity.
Qed.

Definition postTable : TableDefinition :=
  {| table_name := "post"; table_description := None;
     table_fields :=
       [ {| field_name := "title"; field_type := "string"; field_optional := false;
            field_description := None; field_defaultValue := None;
            field_reference := None |};
         {| field_name := "views"; field_type := "int"; field_optional := true;
            field_description := None; field_defaultValue := None;
            field_reference := None |} ] |}.

Lemma implicit_id_synthesis_witness :
  fieldDefinitions postTable =
    idFieldDefinition "post" :: map fieldDefinition (table_fields postTable).
Proof.
  apply (proj1 (implicit_id_synthesis postTable)).
  intros f [<-|[<-|[]]]; discriminate.
Defined.

(** ** The type dispatch and the optional wrapping *)

Section Dispatch.

Variable f : FieldDefinition.

(** Splits a goal on [dispatchType f] along the branches of the
    [switch]. *)
Ltac dispatch_cases :=
  unfold dispatchType;
  repeat match goal with
    | |- context [ (toLowerCase (field_type f) =? ?s) ] =>
        destruct (toLowerCase (field_type f) =? s) eqn:?
    | |- context [ match field_reference f with _ => _ end ] =>
        destruct (field_reference f) eqn:?
    | |- context [ if ?b then _ else _ ] => destruct b eqn:?
    end;
  cbn [orb andb].

Lemma dispatchType_not_wrapped :
  startsWith "Schema.optional(" (dispatchType f) = false.
Proof. unfold startsWith. dispatch_cases; reflexivity. Qed.

Lemma effectType_cases :
  effectType f =
    if field_optional f && negb (toLowerCase (field_type f) =? "datetime")
    then "Schema.optional(" ++ dispatchType f ++ ")"
    else dispatchType f.
Proof. unfold effectType. now rewrite andb_comm. Qed.

Lemma dispatchType_datetime :
  toLowerCase (field_type f) = "datetime" ->
  dispatchType f = "Schema.Date" ++ annotationsStr f.
Proof. intros H. unfold dispatchType. rewrite H. reflexivity. Qed.

End Dispatch.

(** C2.  A field marked optional whose lower-cased type tag is not
    [datetime] is wrapped in [Schema.optional(...)]; an optional
    [datetime] field is not wrapped; a field that is not optional is
    never wrapped.  The wrapped and unwrapped forms cannot be confused:
    the text starts with [Schema.optional(] exactly in the first case. *)
Theorem optional_wrapping (f : FieldDefinition) :
  (field_optional f = true -> toLowerCase (field_type f) <> "datetime" ->
     effectType f = "Schema.optional(" ++ dispatchType f ++ ")")
  /\ (field_optional f = true -> toLowerCase (field_type f) = "datetime" ->
     effectType f = "Schema.Date" ++ annotationsStr f)
  /\ (field_optional f = false -> effectType f = dispatchType f)
  /\ (startsWith "Schema.optional(" (effectType f) = true <->
      field_optional f = true /\ toLowerCase (field_type f) <> "datetime").
Proof.
  rewrite effectType_cases.
  pose proof (dispatchType_not_wrapped f) as Hnw.
  destruct (String.eqb_spec (toLowerCase (field_type f)) "datetime") as [Hd|Hd];
    destruct (field_optional f); cbn [andb negb];
    (split; [|split; [|split; [|split]]]); intros; try congruence;
    try (now apply dispatchType_datetime); try tauto;
    try (split; congruence); try (exfalso; intuition congruence).
  unfold startsWith. apply prefix_append.
Qed.

Definition optionalInt : FieldDefinition :=
  {| field_name := "age"; field_type := "INT"; field_optional := true;
     field_description := None; field_defaultValue := None;
     field_reference := None |}.

Definition optionalDatetime : FieldDefinition :=
  {| field_name := "at"; field_type := "DateTime"; field_optional := true;
     field_description := None; field_defaultValue := None;
     field_reference := None |}.

Lemma optional_wrapping_witness :
  effectType optionalInt = "Schema.optional(Schema.Number.pipe(Schema.int()))"
  /\ effectType optionalDatetime = "Schema.Date".
Proof.
  split.
  - apply (proj1 (optional_wrapping optionalInt)); [reflexivity | discriminate].
  - apply (proj1 (proj2 (optional_wrapping optionalDatetime))); reflexivity.
Defined.

(** The type tags the [switch] has a [case] for. *)
Definition vocabulary : list string :=
  [ "int"; "number"; "float"; "bool"; "datetime"; "array"; "array_float";
    "array_record"; "object"; "record"; "references" ].

(** The validator texts the [switch] can produce, before the annotation
    clause. *)
Definition validators (f : FieldDefinition) : list string :=
  [ "Schema.Number.pipe(Schema.int())"; "Schema.Number"; "Schema.Boolean";
    "Schema.Date"; "Schema.Array(Schema.String)"; "Schema.Array(Schema.Number)";
    "Schema.Array(Schema.String.pipe(Schema.pattern(" ++ colonPattern ++ ")))";
    "Schema.Record(Schema.String, Schema.Unknown)";
    "Schema.String.pipe(Schema.pattern(" ++ bracketPattern ++ "))";
    "Schema.String" ]
  ++ match field_reference f with
     | Some r => [ "Schema.Array(recordId(" ++ dq ++ table r ++ dq ++ "))";
                   "recordId(" ++ dq ++ table r ++ dq ++ ")" ]
     | None => []
     end.

Section Fallbacks.

Variable f : FieldDefinition.

Ltac tag_cases :=
  unfold dispatchType;
  repeat match goal with
    | |- context [ (toLowerCase (field_type f) =? ?s) ] =>
        destruct (String.eqb_spec (toLowerCase (field_type f)) s)
    end;
  cbn [orb andb].

Lemma dispatchType_unknown :
  ~ In (toLowerCase (field_type f)) vocabulary ->
  dispatchType f = "Schema.String" ++ annotationsStr f.
Proof.
  intros H. tag_cases; try reflexivity;
    exfalso; apply H; unfold vocabulary;
    match goal with e : toLowerCase _ = _ |- _ => rewrite e end;
    simpl; tauto.
Qed.

Lemma dispatchType_record_reference (r : Reference) :
  toLowerCase (field_type f) = "record" ->
  field_reference f = Some r ->
  dispatchType f = "recordId(" ++ dq ++ table r ++ dq ++ ")" ++ annotationsStr f.
Proof.
  intros Ht Hr. unfold dispatchType. rewrite Ht, Hr. cbn [String.eqb orb].
  change ("record" =? "record") with true. cbv iota.
  destruct (String.eqb_spec (table r) "telegram_message") as [->|_];
    destruct (field_name f =? "reply_to_message_id"); reflexivity.
Qed.

Lemma dispatchType_total :
  exists v, In v (validators f) /\ dispatchType f = v ++ annotationsStr f.
Proof.
  unfold validators, dispatchType.
  repeat match goal with
    | |- context [ (toLowerCase (field_type f) =? ?s) ] =>
        destruct (toLowerCase (field_type f) =? s)
    end; cbn [orb];
    destruct (field_reference f) as [r|];
    try match goal with
      | |- context [ if ?b then _ else _ ] => destruct b eqn:Hb
      end;
    try (apply andb_true_iff in Hb as [_ Hb]; apply String.eqb_eq in Hb;
         rewrite <- Hb);
    match goal with
    | |- exists v, _ /\ ?a ++ dq ++ ?t ++ dq ++ ?b ++ ?c = _ =>
        exists (a ++ dq ++ t ++ dq ++ b); split;
        [cbn [In app]; tauto | now rewrite !append_assoc]
    | |- exists v, _ /\ ?a ++ colonPattern ++ ?b ++ ?c = _ =>
        exists (a ++ colonPattern ++ b); split;
        [cbn [In app]; tauto | now rewrite !append_assoc]
    | |- exists v, _ /\ ?a ++ bracketPattern ++ ?b ++ ?c = _ =>
        exists (a ++ bracketPattern ++ b); split;
        [cbn [In app]; tauto | now rewrite !append_assoc]
    | |- exists v, _ /\ ?a ++ ?c = _ =>
        exists a; split; [cbn [In app]; tauto | reflexivity]
    end.
Qed.

End Fallbacks.

(** C4.  The type mapper is total: every field gets one of the fixed
    validator texts followed by its annotation clause.  A type tag
    outside the vocabulary gives [Schema.String]; a [record] field
    without reference gives a string constrained by the bracket pattern,
    an [array_record] field without reference an array of strings
    constrained by the colon pattern, and the two patterns differ; a
    [references] field without reference gives an array of plain
    strings. *)
Theorem type_mapper_fallbacks (f : FieldDefinition) :
  (exists v, In v (validators f) /\ dispatchType f = v ++ annotationsStr f)
  /\ (~ In (toLowerCase (field_type f)) vocabulary ->
      dispatchType f = "Schema.String" ++ annotationsStr f)
  /\ (toLowerCase (field_type f) = "record" -> field_reference f = None ->
      dispatchType f =
        "Schema.String.pipe(Schema.pattern(" ++ bracketPattern ++ "))"
          ++ annotationsStr f)
  /\ (toLowerCase (field_type f) = "array_record" -> field_reference f = None ->
      dispatchType f =
        "Schema.Array(Schema.String.pipe(Schema.pattern(" ++ colonPattern ++ ")))"
          ++ annotationsStr f)
  /\ bracketPattern <> colonPattern
  /\ (toLowerCase (field_type f) = "references" -> field_reference f = None ->
      dispatchType f = "Schema.Array(Schema.String)" ++ annotationsStr f).
Proof.
  split; [apply dispatchType_total|].
  split; [apply dispatchType_unknown|].
  repeat split;
    try (intros Ht Hr; unfold dispatchType; rewrite Ht, Hr; reflexivity).
  discriminate.
Qed.

Definition unknownField : FieldDefinition :=
  {| field_name := "payload"; field_type := "Geometry"; field_optional := false;
     field_description := None; field_defaultValue := None;
     field_reference := None |}.

Definition looseRecord : FieldDefinition :=
  {| field_name := "owner"; field_type := "record"; field_optional := false;
     field_description := None; field_defaultValue := None;
     field_reference := None |}.

Definition looseReferences : FieldDefinition :=
  {| field_name := "tags"; field_type := "references"; field_optional := false;
     field_description := None; field_defaultValue := None;
     field_reference := None |}.

Lemma type_mapper_fallbacks_witness :
  dispatchType unknownField = "Schema.String"
  /\ dispatchType looseRecord =
       "Schema.String.pipe(Schema.pattern(" ++ bracketPattern ++ "))"
  /\ dispatchType looseReferences = "Schema.Array(Schema.String)".
Proof.
  split; [|split].
  - apply (proj1 (proj2 (type_mapper_fallbacks unknownField))).
    cbv. intuition discriminate.
  - apply (proj1 (proj2 (proj2 (type_mapper_fallbacks looseRecord))));
      reflexivity.
  - apply (proj2 (proj2 (proj2 (proj2 (proj2
             (type_mapper_fallbacks looseReferences)))))); reflexivity.
Defined.

(** C9.  For a [record] field with a reference, the [switch] yields
    [recordId("<reference table>")] followed by the annotation clause,
    whether or not the field is the special-cased [reply_to_message_id]
    referring to [telegram_message]: the special branch and the general
    branch give the same text.  The optional wrapping of C2 then applies
    to it as to any other type. *)
Theorem record_reference_uniform (f : FieldDefinition) (r : Reference) :
  toLowerCase (field_type f) = "record" ->
  field_reference f = Some r ->
  dispatchType f = "recordId(" ++ dq ++ table r ++ dq ++ ")" ++ annotationsStr f
  /\ effectType f =
       if field_optional f
       then "Schema.optional(" ++ "recordId(" ++ dq ++ table r ++ dq ++ ")"
              ++ annotationsStr f ++ ")"
       else "recordId(" ++ dq ++ table r ++ dq ++ ")" ++ annotationsStr f.
Proof.
  intros Ht Hr.
  pose proof (dispatchType_record_reference f r Ht Hr) as Hd.
  split; [exact Hd|].
  unfold effectType. rewrite Hd, Ht.
  destruct (field_optional f); cbn [negb andb]; [|reflexivity].
  now rewrite !append_assoc.
Qed.

Definition replyToMessage : FieldDefinition :=
  {| field_name := "reply_to_message_id"; field_type := "record";
     field_optional := false;
     field_description := None; field_defaultValue := None;
     field_reference := Some {| table := "telegram_message" |} |}.

Lemma record_reference_uniform_witness :
  dispatchType replyToMessage = "recordId(" ++ dq ++ "telegram_message" ++ dq ++ ")"
  /\ effectType replyToMessage = "recordId(" ++ dq ++ "telegram_message" ++ dq ++ ")".
Proof.
  apply (record_reference_uniform replyToMessage {| table := "telegram_message" |});
    reflexivity.
Defined.

(** ** Annotations *)

(** A field with another [description], and with another
    [defaultValue]. *)
Definition withDescription (d : option string) (f : FieldDefinition) : FieldDefinition :=
  {| field_name := field_name f; field_type := field_type f;
     field_optional := field_optional f;
     field_description := d; field_defaultValue := field_defaultValue f;
     field_reference := field_reference f |}.

Definition withDefaultValue (v : option string) (f : FieldDefinition) : FieldDefinition :=
  {| field_name := field_name f; field_type := field_type f;
     field_optional := field_optional f;
     field_description := field_description f; field_defaultValue := v;
     field_reference := field_reference f |}.

Section Annotations.

Variable f : FieldDefinition.

Lemma descriptionAnnotations_some (d : string) :
  field_description f = Some d -> d <> EmptyString ->
  descriptionAnnotations f = [ "description: '" ++ escapedDescription d ++ "'" ].
Proof.
  intros H Hd. unfold descriptionAnnotations. rewrite H.
  destruct d; [now elim Hd | reflexivity].
Qed.

Lemma descriptionAnnotations_falsy :
  truthy (field_description f) = false -> descriptionAnnotations f = [].
Proof. intros H. unfold descriptionAnnotations. now rewrite H. Qed.

Lemma defaultAnnotations_falsy :
  truthy (field_defaultValue f) = false -> defaultAnnotations f = [].
Proof. intros H. unfold defaultAnnotations. now rewrite H. Qed.

Lemma descriptionAnnotations_not_default (e : string) :
  In e (descriptionAnnotations f) -> startsWith "default: " e = false.
Proof.
  unfold descriptionAnnotations.
  destruct (truthy (field_description f)); [|cbn [In]; tauto].
  destruct (field_description f); cbn [In]; [|tauto].
  intros [<-|[]]. reflexivity.
Qed.

Lemma annotationsStr_nonempty :
  annotations f <> [] ->
  annotationsStr f = ".annotations({ " ++ join ", " (annotations f) ++ " })".
Proof.
  unfold annotationsStr. destruct (annotations f); [congruence | reflexivity].
Qed.

Lemma annotationsStr_empty :
  annotations f = [] -> annotationsStr f = EmptyString.
Proof. unfold annotationsStr. now intros ->. Qed.

End Annotations.

Lemma truthy_false (o : option string) :
  truthy o = false <-> o = None \/ o = Some EmptyString.
Proof.
  destruct o as [[|c s]|]; simpl; split; intros H; auto;
    try discriminate; destruct H; discriminate.
Qed.

(** C10.  An empty-string description gives no description entry and an
    empty-string default value gives no [default] or [surrealDefault]
    entry: the generated field text is the one of the field without the
    property.  A field whose description and default value are each
    absent or empty gets the empty annotation clause. *)
Theorem empty_metadata_is_absent (f : FieldDefinition) :
  descriptionAnnotations (withDescription (Some EmptyString) f) = []
  /\ fieldDefinition (withDescription (Some EmptyString) f)
     = fieldDefinition (withDescription None f)
  /\ defaultAnnotations (withDefaultValue (Some EmptyString) f) = []
  /\ fieldDefinition (withDefaultValue (Some EmptyString) f)
     = fieldDefinition (withDefaultValue None f)
  /\ ((field_description f = None \/ field_description f = Some EmptyString) ->
      (field_defaultValue f = None \/ field_defaultValue f = Some EmptyString) ->
      annotations f = [] /\ annotationsStr f = EmptyString).
Proof.
  repeat split; try reflexivity.
  - unfold annotations.
    rewrite descriptionAnnotations_falsy, defaultAnnotations_falsy;
      trivial; now apply truthy_false.
  - apply annotationsStr_empty. unfold annotations.
    rewrite descriptionAnnotations_falsy, defaultAnnotations_falsy;
      trivial; now apply truthy_false.
Qed.

Definition emptyMetadata : FieldDefinition :=
  {| field_name := "note"; field_type := "string"; field_optional := false;
     field_description := Some EmptyString;
     field_defaultValue := Some EmptyString;
     field_reference := None |}.

Lemma empty_metadata_is_absent_witness :
  annotations emptyMetadata = [] /\ annotationsStr emptyMetadata = EmptyString.
Proof.
  apply (proj2 (proj2 (proj2 (proj2 (empty_metadata_is_absent emptyMetadata)))));
    right; reflexivity.
Defined.

(** ** The numeric pattern *)

(** The language of [/^-?\d+(\.\d+)?$/], written out: an optional minus
    sign, a non-empty run of digits and, optionally, a dot followed by a
    non-empty run of digits. *)
Fixpoint allDigits (s : string) : bool :=
  match s with
  | EmptyString => true
  | String c r => isDigit c && allDigits r
  end.

Definition Digits (s : string) : Prop :=
  s <> EmptyString /\ allDigits s = true.

Definition SignedDecimal (v : string) : Prop :=
  exists sign int frac,
    v = sign ++ int ++ frac
    /\ (sign = EmptyString \/ sign = "-")
    /\ Digits int
    /\ (frac = EmptyString \/ exists d, frac = "." ++ d /\ Digits d).

Definition headNotDigit (s : string) : bool :=
  match s with
  | EmptyString => true
  | String c _ => negb (isDigit c)
  end.

Section NumericPattern.

Lemma skipDigits_split (s : string) :
  exists ds, s = ds ++ skipDigits s /\ allDigits ds = true.
Proof.
  induction s as [|c s (ds & IH & Hds)].
  - now exists EmptyString.
  - simpl. destruct (isDigit c) eqn:Hc.
    + exists (String c ds). simpl. rewrite Hc, Hds. now rewrite <- IH.
    + now exists EmptyString.
Qed.

Lemma skipDigits_head (s : string) : headNotDigit (skipDigits s) = true.
Proof.
  induction s as [|c s IH]; simpl; trivial.
  destruct (isDigit c) eqn:Hc; trivial. simpl. now rewrite Hc.
Qed.

Lemma skipDigits_append (ds r : string) :
  allDigits ds = true -> headNotDigit r = true -> skipDigits (ds ++ r) = r.
Proof.
  intros Hds Hr. induction ds as [|c ds IH]; simpl.
  - destruct r as [|c r]; simpl in *; trivial.
    now destruct (isDigit c).
  - simpl in Hds. apply andb_true_iff in Hds as [Hc Hds].
    rewrite Hc. now apply IH.
Qed.

Lemma digits1_spec (s r : string) :
  digits1 s = Some r <->
  exists ds, Digits ds /\ s = ds ++ r /\ headNotDigit r = true.
Proof.
  split.
  - destruct s as [|c s]; simpl; [discriminate|].
    destruct (isDigit c) eqn:Hc; [|discriminate].
    intros [= <-]. destruct (skipDigits_split s) as (ds & Hs & Hds).
    exists (String c ds). repeat split.
    + discriminate.
    + simpl. now rewrite Hc.
    + simpl. now rewrite <- Hs.
    + apply skipDigits_head.
  - intros (ds & [Hne Hds] & -> & Hr).
    destruct ds as [|c ds]; [now elim Hne|].
    simpl in *. apply andb_true_iff in Hds as [Hc Hds].
    rewrite Hc. now rewrite skipDigits_append.
Qed.

Lemma optMinus_split (v : string) :
  exists sign, v = sign ++ optMinus v /\ (sign = EmptyString \/ sign = "-").
Proof.
  destruct v as [|c r]; [exists EmptyString; auto|]. simpl.
  destruct (Ascii.eqb_spec c "-") as [->|_];
    [exists "-" | exists EmptyString]; auto.
Qed.

Lemma numericTest_spec (v : string) :
  numericTest v = true <-> SignedDecimal v.
Proof.
  unfold numericTest. split.
  - destruct (optMinus_split v) as (sign & Hv & Hsign).
    rewrite Hv at 2. generalize (optMinus v). intros u.
    destruct (digits1 u) as [rest|] eqn:Hd; [|discriminate].
    apply digits1_spec in Hd as (int & Hint & -> & _).
    destruct rest as [|c r].
    + intros _. exists sign, int, EmptyString. auto.
    + destruct (Ascii.eqb_spec c ".") as [->|_]; [|discriminate].
      destruct (digits1 r) as [[|]|] eqn:Hr; try discriminate.
      apply digits1_spec in Hr as (d & Hdg & -> & _). intros _.
      exists sign, int, ("." ++ d).
      split; [now rewrite append_nil_r|].
      split; [exact Hsign|]. split; [exact Hint|].
      right. now exists d.
  - intros (sign & int & frac & -> & Hsign & Hint & Hfrac).
    assert (Hhead : headNotDigit frac = true).
    { destruct Hfrac as [->|(d & -> & _)]; reflexivity. }
    assert (Hd : digits1 (int ++ frac) = Some frac).
    { apply digits1_spec. now exists int. }
    assert (Hu : optMinus (sign ++ int ++ frac) = int ++ frac).
    { destruct Hsign as [->| ->]; [|reflexivity].
      destruct Hint as [Hne Hall]. destruct int as [|c int]; [now elim Hne|].
      simpl in *. apply andb_true_iff in Hall as [Hc _].
      destruct (Ascii.eqb_spec c "-") as [->|_]; [discriminate | reflexivity]. }
    rewrite Hu, Hd.
    destruct Hfrac as [->|(d & -> & Hdg)]; [reflexivity|].
    simpl.
    assert (Hd' : digits1 d = Some EmptyString).
    { apply digits1_spec. exists d. repeat split; try apply Hdg.
      now rewrite append_nil_r. }
    now rewrite Hd'.
Qed.

End NumericPattern.

(** ** Default values *)

(** [p] occurs in [v]. *)
Definition Contains (p v : string) : Prop := exists a b, v = a ++ p ++ b.

(** The values that are emitted as they are: already quoted, a boolean
    literal, a signed decimal, or the start of an array or object
    literal. *)
Definition NativeLiteral (v : string) : Prop :=
  (exists r, v = "'" ++ r) \/ (exists r, v = dq ++ r)
  \/ v = "true" \/ v = "false" \/ SignedDecimal v
  \/ (exists r, v = "[" ++ r) \/ (exists r, v = "{" ++ r).

(** The default formatting as the specification states it, for a field
    [f] whose [defaultValue] is [v]. *)
Definition defaultFormatting (f : FieldDefinition) (v : string) : Prop :=
  (Contains "::" v -> toLowerCase (field_type f) = "datetime" ->
     defaultAnnotations f = [ "surrealDefault: '" ++ v ++ "'" ]
     /\ forall e, In e (annotations f) -> startsWith "default: " e = false)
  /\ (Contains "::" v -> toLowerCase (field_type f) <> "datetime" ->
     defaultAnnotations f = [ "default: '" ++ v ++ "'" ])
  /\ (~ Contains "::" v -> NativeLiteral v ->
     defaultAnnotations f = [ "default: " ++ v ])
  /\ (~ Contains "::" v -> ~ NativeLiteral v ->
     defaultAnnotations f = [ "default: '" ++ v ++ "'" ])
  /\ annotationsStr f =
       ".annotations({ "
         ++ join ", " (descriptionAnnotations f ++ defaultAnnotations f) ++ " })".

Section DefaultValues.

Lemma NativeLiteral_spec (v : string) :
  NativeLiteral v <->
  (startsWith "'" v || startsWith dq v || (v =? "true") || (v =? "false")
   || numericTest v || startsWith "[" v || startsWith "{" v) = true.
Proof.
  unfold NativeLiteral, startsWith.
  rewrite !orb_true_iff, !prefix_split, !String.eqb_eq, numericTest_spec.
  tauto.
Qed.

Lemma formatPlainDefault_native (v : string) :
  NativeLiteral v -> formatPlainDefault v = v.
Proof.
  intros H. apply NativeLiteral_spec in H. unfold formatPlainDefault.
  rewrite <- !negb_orb, H. reflexivity.
Qed.

Lemma formatPlainDefault_quoted (v : string) :
  ~ NativeLiteral v -> formatPlainDefault v = "'" ++ v ++ "'".
Proof.
  intros H. rewrite NativeLiteral_spec in H. apply not_true_is_false in H.
  unfold formatPlainDefault. rewrite <- !negb_orb, H. reflexivity.
Qed.

Lemma Contains_includes (p v : string) : Contains p v <-> includes p v = true.
Proof. symmetry. apply includes_split. Qed.

Variable f : FieldDefinition.
Variable v : string.
Hypothesis Hv : field_defaultValue f = Some v.
Hypothesis Hne : v <> EmptyString.

Lemma defaultAnnotations_some :
  defaultAnnotations f =
    if includes "::" v
    then if toLowerCase (field_type f) =? "datetime"
         then [ "surrealDefault: '" ++ v ++ "'" ]
         else [ "default: '" ++ v ++ "'" ]
    else [ "default: " ++ formatPlainDefault v ].
Proof.
  unfold defaultAnnotations. rewrite Hv.
  destruct v; [now elim Hne | reflexivity].
Qed.

Lemma defaultAnnotations_nonempty : defaultAnnotations f <> [].
Proof.
  rewrite defaultAnnotations_some.
  destruct (includes "::" v); [destruct (_ =? _)|]; discriminate.
Qed.

End DefaultValues.

(** C3 (as amended).  For a field whose [defaultValue] is present and
    not the empty string: a value containing [::] on a [datetime] field
    gives the entry [surrealDefault: '<value>'] and no [default] entry; a
    value containing [::] on any other type gives [default: '<value>'];
    a value without [::] gives [default: <value>], unquoted, when it
    starts with a quote, is [true] or [false], is a signed decimal or
    starts with a bracket or brace, and [default: '<value>'] otherwise.
    The entry is part of the annotation clause. *)
Theorem default_formatting (f : FieldDefinition) (v : string) :
  field_defaultValue f = Some v -> v <> EmptyString -> defaultFormatting f v.
Proof.
  intros Hv Hne. unfold defaultFormatting.
  rewrite (defaultAnnotations_some f v Hv Hne), !Contains_includes.
  split; [|split; [|split; [|split]]].
  - intros Hi Ht. rewrite Hi, Ht. split; [reflexivity|].
    intros e He. unfold annotations in He. apply in_app_or in He as [He|He].
    + now apply (descriptionAnnotations_not_default f).
    + rewrite (defaultAnnotations_some f v Hv Hne), Hi, Ht in He.
      destruct He as [<-|[]]. reflexivity.
  - intros -> Ht. apply String.eqb_neq in Ht. now rewrite Ht.
  - intros Hi Hn. apply not_true_is_false in Hi. rewrite Hi.
    now rewrite formatPlainDefault_native.
  - intros Hi Hn. apply not_true_is_false in Hi. rewrite Hi.
    now rewrite formatPlainDefault_quoted.
  - rewrite <- (defaultAnnotations_some f v Hv Hne).
    apply annotationsStr_nonempty. unfold annotations.
    intros H. apply app_eq_nil in H as [_ H].
    now apply (defaultAnnotations_nonempty f v).
Qed.

Definition createdAt : FieldDefinition :=
  {| field_name := "created_at"; field_type := "datetime"; field_optional := false;
     field_description := None; field_defaultValue := Some "time::now()";
     field_reference := None |}.

Lemma default_formatting_witness : defaultFormatting createdAt "time::now()".
Proof.
  apply (default_formatting createdAt "time::now()"); [reflexivity | discriminate].
Defined.

Definition emptyDefault : FieldDefinition :=
  {| field_name := "label"; field_type := "string"; field_optional := false;
     field_description := None; field_defaultValue := Some EmptyString;
     field_reference := None |}.

(** C3 as stated fails on a default value that is present and empty:
    the value has no [::] and is no native literal, so the claim asks for
    the entry [default: ''], and the generator emits no entry at all. *)
Lemma default_formatting_counterexample :
  field_defaultValue emptyDefault = Some EmptyString
  /\ annotations emptyDefault = []
  /\ annotationsStr emptyDefault = EmptyString
  /\ ~ defaultFormatting emptyDefault EmptyString.
Proof.
  repeat split.
  intros (_ & _ & _ & H & _).
  assert (Hc : ~ Contains "::" EmptyString).
  { rewrite Contains_includes. discriminate. }
  assert (Hn : ~ NativeLiteral EmptyString).
  { rewrite NativeLiteral_spec. discriminate. }
  specialize (H Hc Hn). discriminate.
Qed.

(** ** Escaping of descriptions *)

(** A backslash followed by a quote. *)
Definition backslashQuote : string := String bslash (String quote EmptyString).

(** Every quote of [s] comes right after a backslash; [prev] tells
    whether the character before [s] is a backslash. *)
Fixpoint quotesEscapedFrom (prev : bool) (s : string) : bool :=
  match s with
  | EmptyString => true
  | String c r =>
      (if Ascii.eqb c quote then prev else true)
      && quotesEscapedFrom (Ascii.eqb c bslash) r
  end.

Definition quotesEscaped (s : string) : bool := quotesEscapedFrom false s.

(** Reading the body of the emitted literal back, the way the
    specification describes it: each escaped quote becomes a quote. *)
Definition readLiteralBody (s : string) : string := unescapeQuotes s.

Section Escaping.

Lemma unescapeQuotes_unfold (c : ascii) (r : string) :
  unescapeQuotes (String c r) =
    match r with
    | String c' r' =>
        if (Ascii.eqb c bslash && Ascii.eqb c' quote)%bool
        then String quote (unescapeQuotes r')
        else String c (unescapeQuotes r)
    | EmptyString => String c EmptyString
    end.
Proof. reflexivity. Qed.

Lemma escapeQuotes_escaped (s : string) (prev : bool) :
  quotesEscapedFrom prev (escapeQuotes s) = true.
Proof.
  revert prev. induction s as [|c s IH]; intros prev; [reflexivity|].
  cbn [escapeQuotes]. destruct (Ascii.eqb c quote) eqn:Hc.
  - cbn [quotesEscapedFrom]. rewrite IH. reflexivity.
  - cbn [quotesEscapedFrom]. rewrite Hc, IH. reflexivity.
Qed.

Lemma escapeQuotes_head (s : string) :
  match escapeQuotes s with
  | String c _ => Ascii.eqb c quote = false
  | EmptyString => s = EmptyString
  end.
Proof.
  destruct s as [|c s]; [reflexivity|]. cbn [escapeQuotes].
  destruct (Ascii.eqb c quote) eqn:Hc; [reflexivity | exact Hc].
Qed.

Lemma unescape_escape (s : string) : unescapeQuotes (escapeQuotes s) = s.
Proof.
  induction s as [|c s IH]; [reflexivity|].
  cbn [escapeQuotes]. destruct (Ascii.eqb c quote) eqn:Hc.
  - apply Ascii.eqb_eq in Hc as ->.
    rewrite unescapeQuotes_unfold. cbn [andb]. now rewrite IH.
  - rewrite unescapeQuotes_unfold.
    pose proof (escapeQuotes_head s) as Hh.
    destruct (escapeQuotes s) as [|c' r'] eqn:He.
    + now rewrite Hh.
    + rewrite Hh, andb_false_r. now rewrite IH.
Qed.

Lemma prefix_backslashQuote (s : string) :
  prefix backslashQuote s =
    match s with
    | String c (String c' _) => (Ascii.eqb c bslash && Ascii.eqb c' quote)%bool
    | _ => false
    end.
Proof.
  destruct (prefix backslashQuote s) eqn:Hp.
  - apply prefix_split in Hp as [r ->]. reflexivity.
  - destruct s as [|c [|c' r]]; trivial.
    destruct (Ascii.eqb_spec c bslash) as [->|_]; trivial.
    destruct (Ascii.eqb_spec c' quote) as [->|_]; trivial.
    pose proof (prefix_append backslashQuote r) as Ha.
    change (backslashQuote ++ r) with (String bslash (String quote r)) in Ha.
    congruence.
Qed.

Lemma unescapeQuotes_length (n : nat) :
  forall s, String.length s <= n ->
    String.length (unescapeQuotes s) <= String.length s
    /\ (includes backslashQuote s = true ->
        String.length (unescapeQuotes s) < String.length s).
Proof.
  induction n as [|n IH]; intros s Hn.
  - destruct s; [|simpl in Hn; lia]. split; [reflexivity | discriminate].
  - destruct s as [|c r]; [split; [reflexivity | discriminate]|].
    rewrite unescapeQuotes_unfold, includes_unfold, prefix_backslashQuote.
    destruct r as [|c' r'].
    + split; [reflexivity | discriminate].
    + simpl in Hn.
      destruct (IH (String c' r') ltac:(simpl; lia)) as [Hle Hlt].
      destruct (IH r' ltac:(lia)) as [Hle' _].
      destruct (Ascii.eqb c bslash && Ascii.eqb c' quote)%bool eqn:Hm.
      * cbn [String.length]. split; intros; lia.
      * cbn [String.length orb] in *. split; [lia|].
        intros H. specialize (Hlt H). lia.
Qed.

Lemma unescapeQuotes_fixed (s : string) :
  unescapeQuotes s = s <-> includes backslashQuote s = false.
Proof.
  split.
  - intros H. apply not_true_is_false. intros Hi.
    destruct (unescapeQuotes_length (String.length s) s (le_n _)) as [_ Hlt].
    specialize (Hlt Hi). rewrite H in Hlt. lia.
  - induction s as [|c r IH]; [reflexivity|].
    rewrite includes_unfold, unescapeQuotes_unfold, prefix_backslashQuote.
    destruct r as [|c' r']; [reflexivity|]. intros H.
    apply orb_false_iff in H as [Hp Hi]. rewrite Hp. now rewrite (IH Hi).
Qed.

End Escaping.

(** C5 (as amended).  For a description that is present and not empty,
    the description entry holds the escaped text, in which every quote
    comes right after a backslash; reading that text back gives the
    description with its own backslash-quote pairs turned into quotes,
    which is the original description exactly when the description has
    no backslash-quote pair. *)
Theorem description_escaping (f : FieldDefinition) (d : string) :
  field_description f = Some d -> d <> EmptyString ->
  descriptionAnnotations f = [ "description: '" ++ escapedDescription d ++ "'" ]
  /\ quotesEscaped (escapedDescription d) = true
  /\ readLiteralBody (escapedDescription d) = unescapeQuotes d
  /\ (readLiteralBody (escapedDescription d) = d <->
      includes backslashQuote d = false).
Proof.
  intros Hd Hne. unfold readLiteralBody, escapedDescription.
  rewrite unescape_escape.
  split; [now apply descriptionAnnotations_some|].
  split; [apply escapeQuotes_escaped|].
  split; [reflexivity | apply unescapeQuotes_fixed].
Qed.

Definition quotedDescription : FieldDefinition :=
  {| field_name := "bio"; field_type := "string"; field_optional := false;
     field_description := Some "the user's bio"; field_defaultValue := None;
     field_reference := None |}.

Lemma description_escaping_witness :
  descriptionAnnotations quotedDescription =
    [ "description: '" ++ escapedDescription "the user's bio" ++ "'" ]
  /\ quotesEscaped (escapedDescription "the user's bio") = true
  /\ readLiteralBody (escapedDescription "the user's bio")
     = unescapeQuotes "the user's bio"
  /\ (readLiteralBody (escapedDescription "the user's bio") = "the user's bio" <->
      includes backslashQuote "the user's bio" = false).
Proof.
  apply (description_escaping quotedDescription "the user's bio");
    [reflexivity | discriminate].
Defined.

Definition preEscapedDescription : FieldDefinition :=
  {| field_name := "bio"; field_type := "string"; field_optional := false;
     field_description := Some backslashQuote; field_defaultValue := None;
     field_reference := None |}.

(** C5 as stated fails on a description that is a backslash followed by
    a quote: the emitted text is that same pair, and reading it back
    gives a lone quote. *)
Lemma description_escaping_counterexample :
  field_description preEscapedDescription = Some backslashQuote
  /\ descriptionAnnotations preEscapedDescription =
       [ "description: '" ++ backslashQuote ++ "'" ]
  /\ readLiteralBody (escapedDescription backslashQuote) = "'"
  /\ readLiteralBody (escapedDescription backslashQuote) <> backslashQuote.
Proof. repeat split. discriminate. Qed.

(** ** Failures *)

(** The first character and the other characters of an identifier. *)
Definition identifierStart (c : ascii) : bool :=
  isUpper c || isLower c || Ascii.eqb c "_" || Ascii.eqb c "$".

Fixpoint identifierParts (s : string) : bool :=
  match s with
  | EmptyString => true
  | String c r => (identifierStart c || isDigit c) && identifierParts r
  end.

Definition isIdentifier (s : string) : bool :=
  match s with
  | EmptyString => false
  | String c r => identifierStart c && identifierParts r
  end.

(** The inputs on which the specification asks for a hard failure: no
    table list, or a table whose name is empty or does not format into
    an identifier. *)
Definition hardFailureCondition (tables : option (list TableDefinition)) : Prop :=
  match tables with
  | None => True
  | Some ts =>
      exists t, In t ts
        /\ (table_name t = EmptyString
            \/ isIdentifier (formatClassName (table_name t)) = false)
  end.

Definition namelessTable : TableDefinition :=
  {| table_name := EmptyString; table_description := None; table_fields := [] |}.

(** C6 as stated fails on a list holding a table with the empty name:
    the specification asks for a failure, and the call returns a
    document whose class has the empty name. *)
Lemma hard_failure_counterexample :
  hardFailureCondition (Some [ namelessTable ])
  /\ formatClassName (table_name namelessTable) = EmptyString
  /\ callGenerateEffectSchemas (Some [ namelessTable ])
     = Return (imports ++ nl ++ nl ++
               "export class  extends Schema.Class<>(" ++ dq ++ dq ++ ")({" ++ nl ++
               "  id: recordId(" ++ dq ++ dq ++ ").annotations({" ++ nl ++
               "    description: " ++ dq ++ "Unique identifier" ++ dq ++ nl ++
               "  })" ++ nl ++ "}) {}" ++ nl)
  /\ ~ (hardFailureCondition (Some [ namelessTable ]) <->
        exists e, callGenerateEffectSchemas (Some [ namelessTable ]) = Throw e).
Proof.
  assert (H : hardFailureCondition (Some [ namelessTable ])).
  { exists namelessTable. split; [now left | now left]. }
  repeat split; trivial.
  intros [Hf _]. destruct (Hf H) as [e He]. discriminate.
Qed.

(** C6 (as amended).  The call fails exactly when the table list is
    missing; on every table list, whatever the table names, it returns
    the generated text. *)
Theorem hard_failure_only_without_list :
  (forall ts, callGenerateEffectSchemas (Some ts) = Return (generateEffectSchemas ts))
  /\ callGenerateEffectSchemas None = Throw TypeError
  /\ (forall tables,
        (exists e, callGenerateEffectSchemas tables = Throw e) <-> tables = None).
Proof.
  repeat split; trivial.
  - intros [e He]. destruct tables; [discriminate | reflexivity].
  - intros ->. now exists TypeError.
Qed.

(** ** The document *)

(** The first character of [s], if any, is an ASCII character: the
    names on which [toUpperCase] of the model is the one of
    JavaScript. *)
Definition asciiHead (s : string) : Prop :=
  match s with
  | EmptyString => True
  | String c _ => nat_of_ascii c < 128
  end.




Section Document.

Lemma join_cons (sep x : string) (l : list string) :
  l <> [] -> join sep (x :: l) = x ++ sep ++ join sep l.
Proof. destruct l; [congruence | reflexivity]. Qed.


Lemma formatClassName_cons (c : ascii) (r : string) :
  formatClassName (String c r) = String (upperChar c) r.
Proof. reflexivity. Qed.









End Document.



(** C8.  The generator is a function of the table list alone: equal
    lists give the same text, and the same completion of the call. *)
Theorem generation_deterministic (tables1 tables2 : list TableDefinition) :
  tables1 = tables2 ->
  generateEffectSchemas tables1 = generateEffectSchemas tables2
  /\ callGenerateEffectSchemas (Some tables1) = callGenerateEffectSchemas (Some tables2).
Proof. intros ->. split; reflexivity. Qed.

Lemma generation_deterministic_witness :
  generateEffectSchemas [ postTable; namelessTable ]
    = generateEffectSchemas (rev [ namelessTable; postTable ])
  /\ callGenerateEffectSchemas (Some [ postTable; namelessTable ])
     = callGenerateEffectSchemas (Some (rev [ namelessTable; postTable ])).
Proof.
  apply (generation_deterministic
           [ postTable; namelessTable ] (rev [ namelessTable; postTable ])).
  reflexivity.
Defined.

(** ** The examples of the specification *)

Definition stringNow : FieldDefinition :=
  {| field_name := "label"; field_type := "string"; field_optional := false;
     field_description := None; field_defaultValue := Some "now";
     field_reference := None |}.

Definition boolTrue : FieldDefinition :=
  {| field_name := "active"; field_type := "bool"; field_optional := false;
     field_description := None; field_defaultValue := Some "true";
     field_reference := None |}.

Example stringNow_text :
  fieldDefinition stringNow = "  label: Schema.String.annotations({ default: 'now' })".
Proof. reflexivity. Qed.

Example createdAt_text :
  fieldDefinition createdAt
    = "  created_at: Schema.Date.annotations({ surrealDefault: 'time::now()' })".
Proof. reflexivity. Qed.

Example boolTrue_text :
  fieldDefinition boolTrue = "  active: Schema.Boolean.annotations({ default: true })".
Proof. reflexivity. Qed.

Example quotedDescription_text :
  fieldDefinition quotedDescription
    = "  bio: Schema.String.annotations({ description: 'the user"
        ++ String bslash "'s bio' })".
Proof. reflexivity. Qed.

Example numericTest_examples :
  map numericTest [ "42"; "-1.5"; "1."; ".5"; "1e3"; "--1"; "-"; "007" ]
    = [ true; true; false; false; false; false; false; true ].
Proof. reflexivity. Qed.

Example postTable_class :
  tableClass postTable =
    nl ++ "export class Post extends Schema.Class<Post>(" ++ dq ++ "Post" ++ dq ++ ")({" ++ nl ++
    "  id: recordId(" ++ dq ++ "post" ++ dq ++ ").annotations({" ++ nl ++
    "    description: " ++ dq ++ "Unique identifier" ++ dq ++ nl ++
    "  })," ++ nl ++
    "  title: Schema.String," ++ nl ++
    "  views: Schema.optional(Schema.Number.pipe(Schema.int()))" ++ nl ++
    "}) {}" ++ nl.
Proof. reflexivity. Qed.


(** * Further properties of the generator and of [recordId] *)

(** ** Runs of characters of a class *)

Section CharClass.

Variable cls : ascii -> bool.

(** The remainder of [s] after its leading characters of the class. *)
Fixpoint skipClass (s : string) : string :=
  match s with
  | EmptyString => EmptyString
  | String c r => if cls c then skipClass r else s
  end.

(** [[...]+] at the head of [s]: the remainder after the run, when the
    run is not empty. *)
Definition class1 (s : string) : option string :=
  match s with
  | EmptyString => None
  | String c r => if cls c then Some (skipClass r) else None
  end.

Fixpoint allClass (s : string) : bool :=
  match s with
  | EmptyString => true
  | String c r => cls c && allClass r
  end.

(** A non-empty run of characters of the class. *)
Definition Run (s : string) : Prop := s <> EmptyString /\ allClass s = true.

Definition headOutside (s : string) : bool :=
  match s with
  | EmptyString => true
  | String c _ => negb (cls c)
  end.

Lemma skipClass_split (s : string) :
  exists run, s = run ++ skipClass s /\ allClass run = true.
Proof.
  induction s as [|c s (run & IH & Hrun)].
  - now exists EmptyString.
  - simpl. destruct (cls c) eqn:Hc.
    + exists (String c run). simpl. rewrite Hc, Hrun. now rewrite <- IH.
    + now exists EmptyString.
Qed.

Lemma skipClass_head (s : string) : headOutside (skipClass s) = true.
Proof.
  induction s as [|c s IH]; simpl; trivial.
  destruct (cls c) eqn:Hc; trivial. simpl. now rewrite Hc.
Qed.

Lemma skipClass_append (run r : string) :
  allClass run = true -> headOutside r = true -> skipClass (run ++ r) = r.
Proof.
  intros Hrun Hr. induction run as [|c run IH]; simpl.
  - destruct r as [|c r]; simpl in *; trivial.
    now destruct (cls c).
  - simpl in Hrun. apply andb_true_iff in Hrun as [Hc Hrun].
    rewrite Hc. now apply IH.
Qed.

Lemma class1_spec (s r : string) :
  class1 s = Some r <->
  exists run, Run run /\ s = run ++ r /\ headOutside r = true.
Proof.
  split.
  - destruct s as [|c s]; simpl; [discriminate|].
    destruct (cls c) eqn:Hc; [|discriminate].
    intros [= <-]. destruct (skipClass_split s) as (run & Hs & Hrun).
    exists (String c run). split; [split|split].
    + discriminate.
    + simpl. now rewrite Hc.
    + simpl. now rewrite <- Hs.
    + apply skipClass_head.
  - intros (run & [Hne Hrun] & -> & Hr).
    destruct run as [|c run]; [now elim Hne|].
    simpl in *. apply andb_true_iff in Hrun as [Hc Hrun].
    rewrite Hc. now rewrite skipClass_append.
Qed.

End CharClass.

(** ** [recordId], lines 14-19 *)

(** [[a-zA-Z0-9_-]] *)
Definition idChar (c : ascii) : bool :=
  isLower c || isUpper c || isDigit c || Ascii.eqb c "_" || Ascii.eqb c "-".

(** [/^[a-zA-Z0-9_-]+:[a-zA-Z0-9_-]+$/.test(s)], line 16. *)
Definition recordIdPatternTest (s : string) : bool :=
  match class1 idChar s with
  | Some (String c r) =>
      Ascii.eqb c ":" &&
      match class1 idChar r with
      | Some EmptyString => true
      | _ => false
      end
  | _ => false
  end.

(** A string schema, as far as [recordId] builds one: the test of
    [Schema.pattern] on the string and the name given to
    [Schema.brand]. *)
Record StringSchema := {
  schema_pattern : string -> bool;
  schema_brand : string
}.

(** [recordId], lines 14-19. *)
Definition recordId (tableName : string) : StringSchema :=
  {| schema_pattern := recordIdPatternTest;
     schema_brand := "RecordId<" ++ tableName ++ ">" |}.

(** The test of the pattern in the text emitted for a [record] field
    without reference, line 157:
    [/^[a-zA-Z0-9_-]+:<langle>\d+<rangle>$/.test(s)]. *)
Definition stripPrefix (p s : string) : option string :=
  if prefix p s then Some (slice (String.length p) s) else None.

Definition bracketPatternTest (s : string) : bool :=
  match class1 idChar s with
  | Some (String c r) =>
      Ascii.eqb c ":" &&
      match stripPrefix langle r with
      | Some r1 =>
          match digits1 r1 with
          | Some r2 => r2 =? rangle
          | None => false
          end
      | None => false
      end
  | _ => false
  end.

Section RecordIdPattern.

Lemma colon_outside : idChar ":" = false.
Proof. reflexivity. Qed.

Lemma recordIdPatternTest_spec (s : string) :
  recordIdPatternTest s = true <->
  exists a b, s = a ++ ":" ++ b /\ Run idChar a /\ Run idChar b.
Proof.
  unfold recordIdPatternTest. split.
  - destruct (class1 idChar s) as [[|c r]|] eqn:Ha; try discriminate.
    apply class1_spec in Ha as (a & Hrun & -> & _).
    destruct (Ascii.eqb_spec c ":") as [->|_]; [|discriminate].
    destruct (class1 idChar r) as [[|]|] eqn:Hb; try discriminate.
    apply class1_spec in Hb as (b & Hb & -> & _). intros _.
    exists a, b. rewrite append_nil_r. auto.
  - intros (a & b & -> & Ha & Hb).
    assert (H1 : class1 idChar (a ++ ":" ++ b) = Some (":" ++ b)).
    { apply class1_spec. exists a. auto. }
    assert (H2 : class1 idChar b = Some EmptyString).
    { apply class1_spec. exists b. rewrite append_nil_r. auto. }
    rewrite H1. simpl. now rewrite H2.
Qed.

End RecordIdPattern.

(** X1.  Whatever the table name, the schema of [recordId] accepts
    exactly the strings made of a non-empty run of letters, digits,
    underscores and hyphens, a colon, and another such run: the table
    name goes into the brand alone, and the part before the colon is not
    compared with it. *)
Theorem recordId_accepts (tableName s : string) :
  (schema_pattern (recordId tableName) s = true <->
   exists a b, s = a ++ ":" ++ b /\ Run idChar a /\ Run idChar b)
  /\ schema_brand (recordId tableName) = "RecordId<" ++ tableName ++ ">".
Proof. split; [apply recordIdPatternTest_spec | reflexivity]. Qed.

(** X2.  No string passes both the pattern of [recordId] and the pattern
    emitted for a [record] field without reference: after the colon the
    first asks for a letter, digit, underscore or hyphen and the second
    for the opening angle bracket. *)
Theorem record_patterns_disjoint (s : string) :
  recordIdPatternTest s = true -> bracketPatternTest s = false.
Proof.
  intros H. apply recordIdPatternTest_spec in H as (a & b & -> & Ha & Hb).
  unfold bracketPatternTest.
  assert (H1 : class1 idChar (a ++ ":" ++ b) = Some (":" ++ b)).
  { apply class1_spec. exists a. auto. }
  rewrite H1. simpl.
  destruct Hb as [Hne Hb]. destruct b as [|c b]; [now elim Hne|].
  simpl in Hb. apply andb_true_iff in Hb as [Hc _].
  unfold stripPrefix.
  destruct (prefix langle (String c b)) eqn:Hp; [|reflexivity].
  apply prefix_split in Hp as [r Hr]. injection Hr as -> _.
  discriminate.
Qed.

Lemma record_patterns_disjoint_witness :
  bracketPatternTest "user:abc_1" = false.
Proof. apply (record_patterns_disjoint "user:abc_1"). reflexivity. Defined.

Example bracketPatternTest_example :
  bracketPatternTest ("user:" ++ langle ++ "42" ++ rangle) = true
  /\ recordIdPatternTest ("user:" ++ langle ++ "42" ++ rangle) = false
  /\ recordIdPatternTest "post:7" = true
  /\ recordIdPatternTest "post:" = false
  /\ recordIdPatternTest "a:b:c" = false.
Proof. repeat split. Qed.

(** ** Class names *)

Section ClassNames.

Lemma upperChar_idempotent (c : ascii) : upperChar (upperChar c) = upperChar c.
Proof. destruct c as [[] [] [] [] [] [] [] []]; reflexivity. Qed.

Lemma lowerChar_upperChar (c : ascii) : lowerChar (upperChar c) = lowerChar c.
Proof. destruct c as [[] [] [] [] [] [] [] []]; reflexivity. Qed.

Lemma formatClassName_nil : formatClassName EmptyString = EmptyString.
Proof. reflexivity. Qed.

End ClassNames.

(** X3.  For a table name that is empty or starts with an ASCII
    character, [formatClassName] changes at most the case of the first
    character: the rest and the length are kept, the lower-cased name is
    the same, the class name is empty only for the empty name, and
    formatting a class name again changes nothing. *)
Theorem formatClassName_stable (tableName : string) :
  asciiHead tableName ->
  formatClassName (formatClassName tableName) = formatClassName tableName
  /\ slice 1 (formatClassName tableName) = slice 1 tableName
  /\ String.length (formatClassName tableName) = String.length tableName
  /\ toLowerCase (formatClassName tableName) = toLowerCase tableName
  /\ (formatClassName tableName = EmptyString <-> tableName = EmptyString).
Proof.
  intros _. destruct tableName as [|c r].
  - repeat split; reflexivity.
  - rewrite !formatClassName_cons. repeat split; try discriminate.
    + now rewrite upperChar_idempotent.
    + cbn [toLowerCase]. now rewrite lowerChar_upperChar.
Qed.

Lemma formatClassName_stable_witness :
  formatClassName (formatClassName "user_profile") = formatClassName "user_profile"
  /\ slice 1 (formatClassName "user_profile") = slice 1 "user_profile"
  /\ String.length (formatClassName "user_profile") = String.length "user_profile"
  /\ toLowerCase (formatClassName "user_profile") = toLowerCase "user_profile"
  /\ (formatClassName "user_profile" = EmptyString <-> "user_profile" = EmptyString).
Proof.
  apply (formatClassName_stable "user_profile").
  apply Nat.ltb_lt. reflexivity.
Defined.

(** X4.  When a table declares its own [id] field, its class text
    depends on the table name through the class name only: two such
    tables with the same description and fields whose names format into
    the same class name, as [user] and [User] do, get the same class
    text. *)
Theorem class_text_by_class_name
        (name1 name2 : string) (d : option string) (fields : list FieldDefinition) :
  hasIdField fields = true ->
  formatClassName name1 = formatClassName name2 ->
  tableClass {| table_name := name1; table_description := d; table_fields := fields |}
  = tableClass {| table_name := name2; table_description := d; table_fields := fields |}.
Proof.
  intros Hid Hn. unfold tableClass, fieldDefinitions, tableDescription.
  cbn [table_name table_description table_fields].
  rewrite Hid, Hn. reflexivity.
Qed.

Definition declaredId : FieldDefinition :=
  {| field_name := "id"; field_type := "string"; field_optional := false;
     field_description := None; field_defaultValue := None;
     field_reference := None |}.

Lemma class_text_by_class_name_witness :
  tableClass {| table_name := "user"; table_description := None;
                table_fields := [ declaredId ] |}
  = tableClass {| table_name := "User"; table_description := None;
                  table_fields := [ declaredId ] |}.
Proof.
  apply (class_text_by_class_name "user" "User" None [ declaredId ]);
    reflexivity.
Defined.

(** ** Table descriptions *)

Section TableDescriptions.

Lemma escapeQuotes_injective (a b : string) :
  escapeQuotes a = escapeQuotes b -> a = b.
Proof.
  intros H. rewrite <- (unescape_escape a), <- (unescape_escape b).
  now rewrite H.
Qed.

Lemma tableDescription_some (t : TableDefinition) (d : string) :
  table_description t = Some d -> d <> EmptyString ->
  tableDescription t = nl ++ "/**" ++ nl ++ " * " ++ escapeQuotes d ++ nl ++ " */".
Proof.
  intros H Hd. unfold tableDescription. rewrite H.
  destruct d; [now elim Hd | reflexivity].
Qed.

End TableDescriptions.

(** X5.  A table description that is present and not empty is put in a
    comment block with every quote escaped, and un-escaping the escaped
    text gives the description back, for every description: this path
    does not un-escape first.  It writes the same text as the escaping
    of field descriptions exactly when the description has no
    backslash-quote pair. *)
Theorem table_description_escaping (t : TableDefinition) (d : string) :
  table_description t = Some d -> d <> EmptyString ->
  tableDescription t = nl ++ "/**" ++ nl ++ " * " ++ escapeQuotes d ++ nl ++ " */"
  /\ quotesEscaped (escapeQuotes d) = true
  /\ unescapeQuotes (escapeQuotes d) = d
  /\ (escapeQuotes d = escapedDescription d <-> includes backslashQuote d = false).
Proof.
  intros H Hd.
  split; [now apply tableDescription_some|].
  split; [apply escapeQuotes_escaped|].
  split; [apply unescape_escape|].
  rewrite <- unescapeQuotes_fixed. unfold escapedDescription. split.
  - intros He. symmetry. now apply escapeQuotes_injective.
  - intros ->. reflexivity.
Qed.

Definition describedTable : TableDefinition :=
  {| table_name := "user"; table_description := Some backslashQuote;
     table_fields := [] |}.

Lemma table_description_escaping_witness :
  tableDescription describedTable
    = nl ++ "/**" ++ nl ++ " * " ++ escapeQuotes backslashQuote ++ nl ++ " */"
  /\ quotesEscaped (escapeQuotes backslashQuote) = true
  /\ unescapeQuotes (escapeQuotes backslashQuote) = backslashQuote
  /\ (escapeQuotes backslashQuote = escapedDescription backslashQuote <->
      includes backslashQuote backslashQuote = false).
Proof.
  apply (table_description_escaping describedTable backslashQuote);
    [reflexivity | discriminate].
Defined.

(** X6.  A table without description, or with the empty description,
    gets no comment block: its class text starts with the newline before
    [export class]. *)
Theorem table_description_absent (t : TableDefinition) :
  table_description t = None \/ table_description t = Some EmptyString ->
  tableDescription t = EmptyString
  /\ startsWith (nl ++ "export class ") (tableClass t) = true.
Proof.
  intros H. apply truthy_false in H.
  assert (Hd : tableDescription t = EmptyString).
  { unfold tableDescription. now rewrite H. }
  split; [exact Hd|].
  unfold startsWith, tableClass. rewrite Hd.
  apply prefix_split. eexists. rewrite append_assoc. reflexivity.
Qed.

Lemma table_description_absent_witness :
  tableDescription namelessTable = EmptyString
  /\ startsWith (nl ++ "export class ") (tableClass namelessTable) = true.
Proof. apply (table_description_absent namelessTable). now left. Defined.

(** X7.  The escaping of field descriptions is stable: escaping its own
    output again, or escaping a description whose quotes are already
    escaped, changes nothing. *)
Theorem escapedDescription_idempotent (d : string) :
  escapedDescription (escapedDescription d) = escapedDescription d
  /\ escapedDescription (escapeQuotes d) = escapeQuotes d.
Proof.
  unfold escapedDescription. now rewrite !unescape_escape.
Qed.

(** ** The annotation clause *)

Section AnnotationClause.

Variable f : FieldDefinition.

Lemma descriptionAnnotations_length :
  List.length (descriptionAnnotations f)
  = if truthy (field_description f) then 1 else 0.
Proof.
  unfold descriptionAnnotations.
  destruct (field_description f) as [[|c d]|]; reflexivity.
Qed.

Lemma defaultAnnotations_length :
  List.length (defaultAnnotations f)
  = if truthy (field_defaultValue f) then 1 else 0.
Proof.
  unfold defaultAnnotations.
  destruct (field_defaultValue f) as [[|c v]|]; try reflexivity.
  cbn [truthy]. destruct (includes "::" (String c v)); [|reflexivity].
  destruct (toLowerCase (field_type f) =? "datetime"); reflexivity.
Qed.

Lemma annotations_length :
  List.length (annotations f)
  = (if truthy (field_description f) then 1 else 0)
    + (if truthy (field_defaultValue f) then 1 else 0).
Proof.
  unfold annotations.
  now rewrite length_app, descriptionAnnotations_length, defaultAnnotations_length.
Qed.

End AnnotationClause.

(** X8.  The annotation clause of a field is empty exactly when its
    description and its default value are each absent or empty;
    otherwise it is [.annotations({ ... })] around one entry per
    non-empty property, the description entry first. *)
Theorem annotation_clause_shape (f : FieldDefinition) :
  List.length (annotations f)
    = (if truthy (field_description f) then 1 else 0)
      + (if truthy (field_defaultValue f) then 1 else 0)
  /\ (annotationsStr f = EmptyString <->
      truthy (field_description f) = false /\ truthy (field_defaultValue f) = false)
  /\ (annotationsStr f <> EmptyString ->
      annotationsStr f = ".annotations({ " ++ join ", " (annotations f) ++ " })")
  /\ (truthy (field_description f) = true ->
      exists e rest, annotations f = e :: rest
                     /\ startsWith "description: '" e = true
                     /\ forall e', In e' rest -> startsWith "description: '" e' = false).
Proof.
  pose proof (annotations_length f) as Hlen.
  split; [exact Hlen|]. split; [|split].
  - unfold annotationsStr. rewrite Hlen.
    destruct (truthy (field_description f)), (truthy (field_defaultValue f));
      cbn; split; intros H; try discriminate; try tauto;
      destruct H; discriminate.
  - intros Hne. unfold annotationsStr in *.
    destruct (0 <? List.length (annotations f))%nat; [reflexivity | now elim Hne].
  - intros Ht. unfold annotations, descriptionAnnotations. rewrite Ht.
    destruct (field_description f) as [d|]; [|discriminate].
    eexists. eexists. split; [reflexivity|].
    split; [unfold startsWith; apply prefix_append|].
    intros e' He'. cbn [app] in He'. unfold defaultAnnotations in He'.
    destruct (truthy (field_defaultValue f)); [|destruct He'].
    destruct (field_defaultValue f) as [v|]; [|destruct He'].
    destruct (includes "::" v);
      [destruct (toLowerCase (field_type f) =? "datetime")|];
      destruct He' as [<-|[]]; reflexivity.
Qed.

Lemma annotation_clause_shape_witness :
  exists e rest, annotations quotedDescription = e :: rest
                 /\ startsWith "description: '" e = true
                 /\ forall e', In e' rest -> startsWith "description: '" e' = false.
Proof.
  apply (proj2 (proj2 (proj2 (annotation_clause_shape quotedDescription)))).
  reflexivity.
Defined.

(** ** The field lines of a class *)

(** X9.  Every class has at least one field line: a table without
    fields gets the synthesized [id] line alone, and in general the
    number of lines is the number of declared fields, plus one when no
    field is named [id]. *)
Theorem class_has_fields (t : TableDefinition) :
  fieldDefinitions t <> []
  /\ List.length (fieldDefinitions t)
     = List.length (table_fields t)
       + (if hasIdField (table_fields t) then 0 else 1)
  /\ (table_fields t = [] ->
      fieldDefinitions t = [ idFieldDefinition (table_name t) ]).
Proof.
  unfold fieldDefinitions. split; [|split].
  - destruct (table_fields t) as [|f fs]; [discriminate|].
    destruct (hasIdField (f :: fs)); discriminate.
  - destruct (hasIdField (table_fields t)); cbn [negb];
      rewrite length_app, length_map; cbn [List.length]; lia.
  - intros ->. reflexivity.
Qed.

Lemma class_has_fields_witness :
  fieldDefinitions namelessTable = [ idFieldDefinition (table_name namelessTable) ].
Proof.
  apply (proj2 (proj2 (class_has_fields namelessTable))). reflexivity.
Defined.

(** ** What the field text depends on *)

(** A field with another type tag, and with another reference. *)
Definition withType (ty : string) (f : FieldDefinition) : FieldDefinition :=
  {| field_name := field_name f; field_type := ty;
     field_optional := field_optional f;
     field_description := field_description f;
     field_defaultValue := field_defaultValue f;
     field_reference := field_reference f |}.

Definition withReference (r : option Reference) (f : FieldDefinition) : FieldDefinition :=
  {| field_name := field_name f; field_type := field_type f;
     field_optional := field_optional f;
     field_description := field_description f;
     field_defaultValue := field_defaultValue f;
     field_reference := r |}.

(** The type tags whose [case] reads [field.reference]. *)
Definition relationalTags : list string :=
  [ "array_record"; "record"; "references" ].

Section FieldTextDependencies.

Variable f : FieldDefinition.

Lemma fieldDefinition_by_lower_tag (ty1 ty2 : string) :
  toLowerCase ty1 = toLowerCase ty2 ->
  fieldDefinition (withType ty1 f) = fieldDefinition (withType ty2 f).
Proof.
  intros H.
  unfold fieldDefinition, effectType, dispatchType, annotationsStr, annotations,
    defaultAnnotations, descriptionAnnotations.
  cbn [withType field_name field_type field_optional field_description
       field_defaultValue field_reference].
  rewrite H. reflexivity.
Qed.

Lemma annotationsStr_withReference (r : option Reference) :
  annotationsStr (withReference r f) = annotationsStr f.
Proof. reflexivity. Qed.

Lemma dispatchType_withReference (r : option Reference) :
  ~ In (toLowerCase (field_type f)) relationalTags ->
  dispatchType (withReference r f) = dispatchType f.
Proof.
  intros H. unfold dispatchType.
  rewrite annotationsStr_withReference.
  cbn [withReference field_name field_type field_reference].
  destruct (String.eqb_spec (toLowerCase (field_type f)) "array_record") as [e|_];
    [exfalso; apply H; rewrite e; cbn; tauto|].
  destruct (String.eqb_spec (toLowerCase (field_type f)) "record") as [e|_];
    [exfalso; apply H; rewrite e; cbn; tauto|].
  destruct (String.eqb_spec (toLowerCase (field_type f)) "references") as [e|_];
    [exfalso; apply H; rewrite e; cbn; tauto|].
  reflexivity.
Qed.

End FieldTextDependencies.

(** X10.  The type tag is read through its lower-case form only: two
    fields that differ in the type tag alone, with tags that lower-case
    to the same string, get the same field text. *)
Theorem type_tag_case_insensitive (f : FieldDefinition) (ty1 ty2 : string) :
  toLowerCase ty1 = toLowerCase ty2 ->
  fieldDefinition (withType ty1 f) = fieldDefinition (withType ty2 f).
Proof. apply fieldDefinition_by_lower_tag. Qed.

Lemma type_tag_case_insensitive_witness :
  fieldDefinition (withType "DateTime" createdAt)
  = fieldDefinition (withType "datetime" createdAt).
Proof.
  apply (type_tag_case_insensitive createdAt "DateTime" "datetime"). reflexivity.
Defined.

(** X11.  The reference of a field is read for the tags [array_record],
    [record] and [references] only: for every other tag, known or not,
    the field text is the same with any reference as with none. *)
Theorem reference_ignored_elsewhere (f : FieldDefinition) (r : option Reference) :
  ~ In (toLowerCase (field_type f)) relationalTags ->
  fieldDefinition (withReference r f) = fieldDefinition f.
Proof.
  intros H. unfold fieldDefinition, effectType.
  rewrite (dispatchType_withReference f r H). reflexivity.
Qed.

Lemma reference_ignored_elsewhere_witness :
  fieldDefinition (withReference (Some {| table := "user" |}) optionalInt)
  = fieldDefinition optionalInt.
Proof.
  apply (reference_ignored_elsewhere optionalInt (Some {| table := "user" |})).
  cbv. intuition discriminate.
Defined.

(** X12.  Distinct tags give the same field text: [number] is [int];
    with a reference, [references] is [array_record]; without one,
    [references] is [array]. *)
Theorem type_tag_aliases (f : FieldDefinition) :
  fieldDefinition (withType "number" f) = fieldDefinition (withType "int" f)
  /\ (field_reference f <> None ->
      fieldDefinition (withType "references" f)
      = fieldDefinition (withType "array_record" f))
  /\ (field_reference f = None ->
      fieldDefinition (withType "references" f)
      = fieldDefinition (withType "array" f)).
Proof.
  split; [reflexivity|]. split.
  - intros Hr. unfold fieldDefinition, effectType, dispatchType.
    cbn [withType field_name field_type field_optional field_reference toLowerCase].
    destruct (field_reference f) as [r|] eqn:E; [reflexivity | now elim Hr].
  - intros Hr. unfold fieldDefinition, effectType, dispatchType.
    cbn [withType field_name field_type field_optional field_reference toLowerCase].
    rewrite Hr. reflexivity.
Qed.

Lemma type_tag_aliases_witness :
  fieldDefinition (withType "references" replyToMessage)
  = fieldDefinition (withType "array_record" replyToMessage)
  /\ fieldDefinition (withType "references" looseReferences)
     = fieldDefinition (withType "array" looseReferences).
Proof.
  split.
  - apply (proj1 (proj2 (type_tag_aliases replyToMessage))). discriminate.
  - apply (proj2 (proj2 (type_tag_aliases looseReferences))). reflexivity.
Defined.

(** ** Documents of concatenated lists *)

Section Concatenation.

Lemma join_app (sep : string) (l1 l2 : list string) :
  l1 <> [] -> l2 <> [] ->
  join sep (l1 ++ l2) = join sep l1 ++ sep ++ join sep l2.
Proof.
  intros H1 H2. induction l1 as [|x l1 IH]; [congruence|].
  destruct l1 as [|y l1].
  - cbn [app]. now rewrite join_cons.
  - change ((x :: y :: l1) ++ l2)%list with (x :: ((y :: l1) ++ l2))%list.
    rewrite join_cons by discriminate. rewrite IH by discriminate.
    rewrite (join_cons sep x (y :: l1)) by discriminate.
    now rewrite !append_assoc.
Qed.

Lemma map_not_nil {A B : Type} (g : A -> B) (l : list A) :
  l <> [] -> map g l <> [].
Proof. destruct l; [congruence | discriminate]. Qed.

End Concatenation.

(** X13.  The document of two non-empty table lists put one after the
    other is the document of the first, a newline, and the class texts
    of the second: the text of a class does not depend on the tables
    around it, and the preamble is not repeated. *)
Theorem document_concatenation (tables1 tables2 : list TableDefinition) :
  tables1 <> [] -> tables2 <> [] ->
  generateEffectSchemas (tables1 ++ tables2)
  = generateEffectSchemas tables1 ++ nl ++ tableClasses tables2.
Proof.
  intros H1 H2. unfold generateEffectSchemas, tableClasses.
  rewrite map_app, join_app by now apply map_not_nil.
  now rewrite !append_assoc.
Qed.

Lemma document_concatenation_witness :
  generateEffectSchemas ([ postTable; describedTable ] ++ [ namelessTable ])
  = generateEffectSchemas [ postTable; describedTable ]
      ++ nl ++ tableClasses [ namelessTable ].
Proof.
  apply (document_concatenation [ postTable; describedTable ] [ namelessTable ]);
    discriminate.
Defined.

(** ** Plain default values *)

(** X14.  The numeric test of line 105 accepts exactly the signed
    decimals: an optional minus sign, one or more digits and,
    optionally, a dot followed by one or more digits. *)
Theorem numeric_pattern_language (v : string) :
  numericTest v = true <-> SignedDecimal v.
Proof.
  split; intros H.
  - now apply numericTest_spec.
  - now apply numericTest_spec.
Qed.

(** X15.  The value written for a default without function call is
    always a native literal: it is the given value when that is one, and
    the quoted value otherwise; formatting it again changes nothing. *)
Theorem plain_default_is_literal (v : string) :
  NativeLiteral (formatPlainDefault v)
  /\ (formatPlainDefault v = v \/ formatPlainDefault v = "'" ++ v ++ "'")
  /\ (formatPlainDefault v = v <-> NativeLiteral v)
  /\ formatPlainDefault (formatPlainDefault v) = formatPlainDefault v.
Proof.
  assert (Hq : NativeLiteral ("'" ++ v ++ "'")).
  { left. now exists (v ++ "'"). }
  assert (Hcase : NativeLiteral v \/ ~ NativeLiteral v).
  { rewrite NativeLiteral_spec.
    destruct (startsWith "'" v || startsWith dq v || (v =? "true") || (v =? "false")
              || numericTest v || startsWith "[" v || startsWith "{" v);
      [now left | right; discriminate]. }
  destruct Hcase as [Hn|Hn].
  - rewrite (formatPlainDefault_native v Hn).
    repeat split; auto. now apply formatPlainDefault_native.
  - rewrite (formatPlainDefault_quoted v Hn).
    split; [exact Hq|]. split; [now right|]. split.
    + split; [|tauto]. intros He. exfalso.
      apply (f_equal String.length) in He. cbn in He.
      assert (Hl : forall a b, String.length (a ++ b)
                               = String.length a + String.length b).
      { intros a b. induction a as [|c a IH]; cbn; [reflexivity | now rewrite IH]. }
      rewrite Hl in He. cbn in He. lia.
    + now apply formatPlainDefault_native.
Qed.
